(** * data_maryland.py: county income and Gini pipeline

    A shallow embedding of [src/data_maryland.py]: the per-year fetcher
    [fetch_acs_county_year], the fetch loop with its two accumulators, the
    guard on [all_dfs], the grouped aggregates, the correlations and the
    order in which the script prints and shows its results.

    Numbers: a float is a rational, plus or minus infinity, or NaN; a
    nullable number is an [option], with [None] for NaN.  Arithmetic on
    finite values is exact, so the rounding of binary64 is not part of
    the model; a correlation is a real ([R]) because of the square root.

    The environment is the HTTP exchange together with the decoding of the
    body into a frame with named columns: for each year it hands back
    either an exception message or the served data rows. *)

From Stdlib Require Import ZArith QArith Qreduction Qreals Lqa Reals Lra Lia.
From Stdlib Require Import List String Ascii Bool Sorted Permutation.
Import ListNotations.

Local Open Scope string_scope.
Local Open Scope Z_scope.

(** ** Data *)

(** A float that is not NaN. *)
Inductive num : Type :=
| Fin (q : Q)
| PInf
| NInf.

(** A JSON scalar of the response body: null, a string, or a number as
    the float it decodes to. *)
Inductive cell : Type :=
| CNull
| CStr (s : string)
| CNum (x : num).

(** One data row of the served table, by the five columns the script
    selects: [NAME], [B19013_001E], [B19083_001E], [state], [county].  A
    cell the row does not have is null. *)
Record served_row : Type := mkServed {
  s_NAME : cell;
  s_income : cell;
  s_gini : cell;
  s_state : cell;
  s_county : cell
}.

(** What lines 27-31 and the column lookups of lines 34, 35 and 40 leave
    for a year.  [Raises]: one of them raised (network, HTTP status, JSON
    decoding, frame construction, a selected column that is missing or
    served twice), with the text [str(e)] gives.  [Served]: the data rows
    of a body whose header has each selected column once. *)
Inductive response : Type :=
| Raises (msg : string)
| Served (rows : list served_row).

(** A Python call that returns or raises. *)
Inductive result (A : Type) : Type :=
| Ok (a : A)
| Exn (msg : string).
Arguments Ok {A} a.
Arguments Exn {A} msg.

(** One row of the frame the fetcher returns (line 40's column list). *)
Record row : Type := mkRow {
  NAME : cell;
  state : cell;
  county : cell;
  year : Z;
  income : option num;
  gini : option num
}.

Definition DataFrame : Type := list row.

Definition YEARS : list Z := [2012; 2014; 2016; 2018; 2022].
Definition STATE_FIPS : string := "24".
Definition VAR_INCOME : string := "B19013_001E".
Definition VAR_GINI : string := "B19083_001E".

(** ** Library primitives the script calls *)

(** [pd.isna] / [pd.notna] on an object cell and on a float cell. *)
Definition notna_cell (c : cell) : bool :=
  match c with CNull => false | _ => true end.

Definition notna (x : option num) : bool :=
  match x with Some _ => true | None => false end.

(** Stable insertion sort, for [sort_values] and for the sorted group keys
    and sorted values the library works on. *)
Fixpoint insert_by {A : Type} (le : A -> A -> bool) (x : A) (l : list A)
  : list A :=
  match l with
  | [] => [x]
  | h :: t => if le x h then x :: l else h :: insert_by le x t
  end.

Definition sort_by {A : Type} (le : A -> A -> bool) (l : list A) : list A :=
  fold_right (insert_by le) [] l.

(** The non-null values of a float column ([skipna=True]). *)
Definition values (xs : list (option num)) : list num :=
  flat_map (fun x => match x with Some v => [v] | None => [] end) xs.

(** Float addition and division by a positive count: the sum of opposite
    infinities is NaN, an infinity absorbs a finite value.  Finite results
    are kept in lowest terms. *)
Definition nadd (a b : option num) : option num :=
  match a, b with
  | Some (Fin x), Some (Fin y) => Some (Fin (x + y))
  | Some PInf, Some NInf | Some NInf, Some PInf => None
  | Some PInf, Some _ | Some _, Some PInf => Some PInf
  | Some NInf, Some _ | Some _, Some NInf => Some NInf
  | _, _ => None
  end.

Definition ndiv (a : option num) (d : Q) : option num :=
  match a with
  | Some (Fin x) => Some (Fin (Qred (x / d)))
  | _ => a
  end.

Definition nsum (v : list num) : option num :=
  fold_right (fun x acc => nadd (Some x) acc) (Some (Fin 0)) v.

Definition Qlen {A : Type} (l : list A) : Q :=
  inject_Z (Z.of_nat (List.length l)).

(** Order of floats: minus infinity first, plus infinity last. *)
Definition num_leb (a b : num) : bool :=
  match a, b with
  | NInf, _ => true
  | _, PInf => true
  | Fin x, Fin y => Qle_bool x y
  | _, _ => false
  end.

(** [Series.mean()]: NaN on no values. *)
Definition series_mean (xs : list (option num)) : option num :=
  match values xs with
  | [] => None
  | v => ndiv (nsum v) (Qlen v)
  end.

(** [Series.median()]: the middle sorted value, or the mean of the two
    middle ones. *)
Definition series_median (xs : list (option num)) : option num :=
  let v := sort_by num_leb (values xs) in
  let n := List.length v in
  match v with
  | [] => None
  | _ =>
      if Nat.even n
      then ndiv (nadd (Some (nth (n / 2 - 1) v (Fin 0)))
                      (Some (nth (n / 2) v (Fin 0)))) 2
      else ndiv (Some (nth (n / 2) v (Fin 0))) 1
  end.

(** [Series.count()] on an object column: the non-null entries. *)
Definition series_count (xs : list cell) : nat :=
  List.length (filter notna_cell xs).

(** The observations [Series.corr] keeps: rows where both values are
    present. *)
Definition complete_pairs (xs ys : list (option num)) : list (num * num) :=
  flat_map (fun p => match p with
                     | (Some x, Some y) => [(x, y)]
                     | _ => []
                     end) (combine xs ys).

(** The observations as rationals, when none is infinite. *)
Fixpoint finite_pairs (ps : list (num * num)) : option (list (Q * Q)) :=
  match ps with
  | [] => Some []
  | (Fin x, Fin y) :: rest =>
      option_map (cons (x, y)) (finite_pairs rest)
  | _ :: _ => None
  end.

Definition Qsum (l : list Q) : Q := fold_right Qplus 0%Q l.

(** Sum of products of deviations from the means. *)
Definition sum_dev (us vs : list Q) : Q :=
  let mu := (Qsum us / Qlen us)%Q in
  let mv := (Qsum vs / Qlen vs)%Q in
  Qsum (map (fun p => ((fst p - mu) * (snd p - mv))%Q) (combine us vs)).

(** The three sums Pearson's coefficient is made of, or [None] where the
    coefficient is undefined: fewer than two observations, or no variance
    in one of the variables. *)
Definition corr_sums (ps : list (Q * Q)) : option (Q * Q * Q) :=
  let us := map fst ps in
  let vs := map snd ps in
  if (List.length ps <? 2)%nat then None
  else
    let sxx := sum_dev us us in
    let syy := sum_dev vs vs in
    if Qeq_bool sxx 0 || Qeq_bool syy 0 then None
    else Some (sum_dev us vs, sxx, syy).

(** Pearson's coefficient of finite observations: covariance over the
    product of the standard deviations. *)
Definition pearson (ps : list (Q * Q)) : option R :=
  match corr_sums ps with
  | None => None
  | Some (sxy, sxx, syy) =>
      Some (Q2R sxy / (sqrt (Q2R sxx) * sqrt (Q2R syy)))%R
  end.

(** [Series.corr(other)], Pearson: NaN where undefined, and NaN as soon as
    an observation is infinite. *)
Definition series_corr (xs ys : list (option num)) : option R :=
  match finite_pairs (complete_pairs xs ys) with
  | None => None
  | Some ps => pearson ps
  end.

Section Pipeline.

(** The string-to-number conversion inside [pd.to_numeric]: the float a
    string converts to, or [None] when it converts to none (or spells
    NaN). *)
Variable parse : string -> option num.

(** [pd.to_numeric(col, errors="coerce")], one element: whatever does not
    convert becomes NaN; nothing raises. *)
Definition to_numeric (c : cell) : option num :=
  match c with
  | CNull => None
  | CStr s => parse s
  | CNum x => Some x
  end.

(** Lines 33-35 and 40 on one served row. *)
Definition build_row (y : Z) (r : served_row) : row :=
  {| NAME := s_NAME r;
     state := s_state r;
     county := s_county r;
     year := y;
     income := to_numeric (s_income r);
     gini := to_numeric (s_gini r) |}.

(** [df.dropna(subset=["income", "gini"])]. *)
Definition dropna (df : DataFrame) : DataFrame :=
  filter (fun r => notna (income r) && notna (gini r)) df.

(** ** The fetcher (lines 14-40) *)
Definition fetch_acs_county_year (api : Z -> response) (y : Z)
  : result DataFrame :=
  match api y with
  | Raises msg => Exn msg
  | Served rows => Ok (dropna (map (build_row y) rows))
  end.

(** ** The fetch loop (lines 43-53) *)

(** What the script writes to standard output and shows on the display. *)
Record trend_row : Type := mkTrend {
  t_year : Z;
  avg_income : option num;
  median_income : option num;
  avg_gini : option num;
  median_gini : option num;
  n_counties : nat
}.

Inductive event : Type :=
| PrintOk (y : Z) (rows : nat)                       (* line 50 *)
| PrintFail (y : Z) (msg : string)                   (* line 53 *)
| PrintTrend (t : list trend_row)                    (* lines 74-75 *)
| PrintCorrByYear (t : list (Z * option R))          (* lines 85-86 *)
| PrintOverall (c : option R)                        (* line 90 *)
| PltShow (title : string) (xs : list Z) (ys : list (option num))
                                                     (* lines 93-98, 100-105 *)
| PrintFailedHeader                                  (* line 109 *)
| PrintFailedYear (y : Z) (msg : string).            (* line 111 *)

Record loop_state : Type := mkLoop {
  all_dfs : list DataFrame;
  failed_years : list (Z * string);
  out : list event
}.

Definition loop_init : loop_state :=
  {| all_dfs := []; failed_years := []; out := [] |}.

(** One iteration: [try ... except Exception as e]. *)
Definition loop_body (api : Z -> response) (st : loop_state) (y : Z)
  : loop_state :=
  match fetch_acs_county_year api y with
  | Ok df_y =>
      {| all_dfs := all_dfs st ++ [df_y];
         failed_years := failed_years st;
         out := out st ++ [PrintOk y (List.length df_y)] |}
  | Exn e =>
      {| all_dfs := all_dfs st;
         failed_years := failed_years st ++ [(y, e)];
         out := out st ++ [PrintFail y e] |}
  end.

Definition fetch_loop (api : Z -> response) (years : list Z) : loop_state :=
  fold_left (loop_body api) years loop_init.

End Pipeline.

(** ** The aggregator (lines 58-90) *)

(** [pd.concat(all_dfs, ignore_index=True)]. *)
Definition pd_concat (dfs : list DataFrame) : DataFrame := List.concat dfs.

(** [groupby("year")]: the distinct years, ascending, each with the rows
    that carry it.  A frame with no rows has no groups. *)
Definition group_keys (df : DataFrame) : list Z :=
  nodup Z.eq_dec (sort_by Z.leb (map year df)).

Definition get_group (df : DataFrame) (y : Z) : DataFrame :=
  filter (fun r => Z.eqb (year r) y) df.

Definition state_trend (final_df : DataFrame) : list trend_row :=
  sort_by (fun a b => Z.leb (t_year a) (t_year b))
    (map (fun y =>
            let g := get_group final_df y in
            {| t_year := y;
               avg_income := series_mean (map income g);
               median_income := series_median (map income g);
               avg_gini := series_mean (map gini g);
               median_gini := series_median (map gini g);
               n_counties := series_count (map NAME g) |})
         (group_keys final_df)).

Definition overall_corr (final_df : DataFrame) : option R :=
  series_corr (map income final_df) (map gini final_df).

(** Lines 78-83.  With at least one group, [apply] yields one value per
    year and [reset_index(name=...)] names that column.  With no group (a
    frame with no rows) [apply] yields a frame, on which [reset_index]
    takes no [name]: the statement raises [TypeError], here [None]. *)
Definition corr_by_year (final_df : DataFrame)
  : option (list (Z * option R)) :=
  match group_keys final_df with
  | [] => None
  | keys =>
      Some (sort_by (fun a b => Z.leb (fst a) (fst b))
              (map (fun y => (y, overall_corr (get_group final_df y)))
                 keys))
  end.

(** ** The script, top to bottom *)

(** How the script ends: normally, by the [raise] of line 56, or by the
    [TypeError] of lines 78-83. *)
Inductive status : Type :=
| Finished
| RuntimeError (msg : string)
| TypeError.

Record outcome : Type := mkOutcome {
  trace : list event;
  exit : status
}.

(** Lines 108-111. *)
Definition failed_listing (failed : list (Z * string)) : list event :=
  match failed with
  | [] => []
  | _ =>
      PrintFailedHeader
      :: map (fun f => PrintFailedYear (fst f) (snd f)) failed
  end.

(** Lines 43-111. *)
Definition main (parse : string -> option num) (api : Z -> response)
  : outcome :=
  let st := fetch_loop parse api YEARS in
  match all_dfs st with
  | [] =>
      {| trace := out st;
         exit := RuntimeError
           "No data fetched. Check network / years / API availability." |}
  | _ =>
      let final_df := pd_concat (all_dfs st) in
      let trend := state_trend final_df in
      match corr_by_year final_df with
      | None =>
          {| trace := out st ++ [PrintTrend trend]; exit := TypeError |}
      | Some corr =>
          {| trace :=
               out st
               ++ [PrintTrend trend;
                   PrintCorrByYear corr;
                   PrintOverall (overall_corr final_df);
                   PltShow
                     "Maryland Avg County Median Household Income (ACS 5-year)"
                     (map t_year trend) (map avg_income trend);
                   PltShow "Maryland Avg County Gini Index (ACS 5-year)"
                     (map t_year trend) (map avg_gini trend)]
               ++ failed_listing (failed_years st);
             exit := Finished |}
      end
  end.

(** A conversion for running the script on concrete bodies: plain decimal
    literals ([-?digits(.digits)?]), read exactly, and the two spellings
    [inf] and [-inf]. *)
Definition digit_of (c : ascii) : option Z :=
  let n := Z.of_nat (nat_of_ascii c) in
  if ((48 <=? n)%Z && (n <=? 57)%Z)%bool then Some (n - 48) else None.

Fixpoint parse_int (s : string) (acc : Z) : option (Z * string) :=
  match s with
  | EmptyString => Some (acc, EmptyString)
  | String c rest =>
      match digit_of c with
      | Some d => parse_int rest (10 * acc + d)
      | None => Some (acc, s)
      end
  end.

Fixpoint parse_frac (s : string) (m : Z) (den : positive)
  : option (Z * positive) :=
  match s with
  | EmptyString => Some (m, den)
  | String c rest =>
      match digit_of c with
      | Some d => parse_frac rest (10 * m + d) (10 * den)%positive
      | None => None
      end
  end.

Definition starts_with_digit (s : string) : bool :=
  match s with
  | String c _ => match digit_of c with Some _ => true | None => false end
  | EmptyString => false
  end.

Definition parse_unsigned (s : string) : option Q :=
  if starts_with_digit s then
    match parse_int s 0 with
    | Some (i, EmptyString) => Some (inject_Z i)
    | Some (i, String "."%char rest) =>
        if starts_with_digit rest then
          match parse_frac rest 0 1 with
          | Some (f, den) => Some (Qred (inject_Z i + (f # den)))
          | None => None
          end
        else None
    | _ => None
    end
  else None.

Definition parse_decimal (s : string) : option num :=
  if String.eqb s "inf" then Some PInf
  else if String.eqb s "-inf" then Some NInf
  else
    match s with
    | String "-"%char rest =>
        option_map (fun q => Fin (Qred (- q))) (parse_unsigned rest)
    | _ => option_map Fin (parse_unsigned s)
    end.

(** ** Views of a run used in the statements *)

(** The frames of the years whose fetch returned, and the years whose
    fetch raised with their messages, both in loop order. *)
Definition fetched (parse : string -> option num) (api : Z -> response)
  (years : list Z) : list DataFrame :=
  flat_map (fun y => match fetch_acs_county_year parse api y with
                     | Ok df => [df]
                     | Exn _ => []
                     end) years.

Definition failures (parse : string -> option num) (api : Z -> response)
  (years : list Z) : list (Z * string) :=
  flat_map (fun y => match fetch_acs_county_year parse api y with
                     | Ok _ => []
                     | Exn e => [(y, e)]
                     end) years.

Definition loop_lines (parse : string -> option num) (api : Z -> response)
  (years : list Z) : list event :=
  map (fun y => match fetch_acs_county_year parse api y with
                | Ok df => PrintOk y (List.length df)
                | Exn e => PrintFail y e
                end) years.

(** The combined table of a run: line 58's [final_df]. *)
Definition combined_table (parse : string -> option num)
  (api : Z -> response) : DataFrame :=
  pd_concat (all_dfs (fetch_loop parse api YEARS)).

(** Event classes: the loop's progress lines, the reporter's three tables,
    the failed-year listing, the charts. *)
Definition is_loop_line (e : event) : bool :=
  match e with PrintOk _ _ | PrintFail _ _ => true | _ => false end.

Definition is_table (e : event) : bool :=
  match e with
  | PrintTrend _ | PrintCorrByYear _ | PrintOverall _ => true
  | _ => false
  end.

Definition is_failed_listing (e : event) : bool :=
  match e with PrintFailedHeader | PrintFailedYear _ _ => true | _ => false end.

Definition is_reporter (e : event) : bool := is_table e || is_failed_listing e.

Definition is_show (e : event) : bool :=
  match e with PltShow _ _ _ => true | _ => false end.

(** No event of class [p] comes after an event of class [q]. *)
Fixpoint never_after (p q : event -> bool) (tr : list event) : bool :=
  match tr with
  | [] => true
  | e :: rest =>
      (if q e then forallb (fun x => negb (p x)) rest else true)
      && never_after p q rest
  end.

(** Rows of a year, and those among them that carry a name. *)
Definition rows_of_year (df : DataFrame) (y : Z) : nat :=
  List.length (get_group df y).


(** The year a progress line of the loop is about, and the row count an
    [OK] line reports. *)
Definition line_year (e : event) : option Z :=
  match e with
  | PrintOk y _ | PrintFail y _ => Some y
  | _ => None
  end.

Definition ok_rows (e : event) : nat :=
  match e with PrintOk _ n => n | _ => O end.


(** ** Concrete responses *)

Definition only (y0 : Z) (r : response) (y : Z) : response :=
  if y =? y0 then r else Raises "500 Server Error".

(** Scenario A: one served year, three counties. *)
Definition api_three : Z -> response :=
  only 2012 (Served
    [mkServed (CStr "Allegany County, Maryland") (CStr "50000")
       (CStr "0.40") (CStr "24") (CStr "001");
     mkServed (CStr "Anne Arundel County, Maryland") (CStr "60000")
       (CStr "0.42") (CStr "24") (CStr "003");
     mkServed (CStr "Baltimore County, Maryland") (CStr "70000")
       (CStr "0.44") (CStr "24") (CStr "005")]).

(** Every year raises. *)
Definition api_down (y : Z) : response := Raises "500 Server Error".

(** One year is served, and its only row has no income. *)
Definition api_blank : Z -> response :=
  only 2012 (Served
    [mkServed (CStr "Allegany County, Maryland") CNull (CStr "0.40")
       (CStr "24") (CStr "001")]).

(** One year is served one complete row. *)
Definition api_single : Z -> response :=
  only 2014 (Served
    [mkServed (CStr "Allegany County, Maryland") (CStr "50000")
       (CStr "0.40") (CStr "24") (CStr "001")]).


(** One year is served a row with an infinite income, a row that spells no
    number and a complete row. *)
Definition api_mixed : Z -> response :=
  only 2016 (Served
    [mkServed (CStr "Kent County, Maryland") (CStr "inf") (CStr "0.43")
       (CStr "24") (CStr "029");
     mkServed (CStr "Cecil County, Maryland") (CStr "N/A") (CStr "0.41")
       (CStr "24") (CStr "015");
     mkServed (CStr "Talbot County, Maryland") (CStr "58000") (CStr "0.45")
       (CStr "24") (CStr "041")]).

(** * Properties *)

(** ** The model on small inputs *)

Example parse_decimal_gini : parse_decimal "0.42" = Some (Fin (21 # 50)).
Proof. reflexivity. Qed.

Example parse_decimal_sentinel :
  parse_decimal "-666666666" = Some (Fin (-666666666 # 1)).
Proof. reflexivity. Qed.

Example parse_decimal_text : parse_decimal "N/A" = None.
Proof. reflexivity. Qed.

Example median_of_four :
  series_median [Some (Fin 1); Some (Fin 4); None; Some (Fin 2); Some (Fin 3)]
  = Some (Fin (5 # 2)).
Proof. reflexivity. Qed.

Example mean_skips_nan :
  series_mean [Some (Fin 1); None; Some (Fin 2)] = Some (Fin (3 # 2)).
Proof. reflexivity. Qed.

Example mean_of_opposite_infinities :
  series_mean [Some PInf; Some (Fin 1); Some NInf] = None.
Proof. reflexivity. Qed.

Example median_with_infinity :
  series_median [Some PInf; Some (Fin 58000)] = Some PInf.
Proof. reflexivity. Qed.

Example fetch_drops_blank_income :
  fetch_acs_county_year parse_decimal api_blank 2012 = Ok [].
Proof. reflexivity. Qed.

Example fetch_keeps_infinite_income :
  fetch_acs_county_year parse_decimal api_mixed 2016
  = Ok [mkRow (CStr "Kent County, Maryland") (CStr "24") (CStr "029") 2016
          (Some PInf) (Some (Fin (43 # 100)));
        mkRow (CStr "Talbot County, Maryland") (CStr "24") (CStr "041") 2016
          (Some (Fin 58000)) (Some (Fin (9 # 20)))].
Proof. reflexivity. Qed.

Example run_all_down :
  main parse_decimal api_down =
  {| trace := map (fun y => PrintFail y "500 Server Error") YEARS;
     exit := RuntimeError
       "No data fetched. Check network / years / API availability." |}.
Proof. reflexivity. Qed.

(** ** The fetch loop *)

Section Loop.

Variable parse : string -> option num.
Variable api : Z -> response.

Lemma loop_from (years : list Z) (st : loop_state) :
  fold_left (loop_body parse api) years st =
  {| all_dfs := all_dfs st ++ fetched parse api years;
     failed_years := failed_years st ++ failures parse api years;
     out := out st ++ loop_lines parse api years |}.
Proof.
  revert st.
  induction years as [| y years IH]; intros st; simpl.
  - rewrite !app_nil_r. now destruct st.
  - rewrite IH. unfold loop_body.
    destruct (fetch_acs_county_year parse api y) as [df | e]; simpl;
      now rewrite <- ?app_assoc.
Qed.

Lemma fetch_loop_eq (years : list Z) :
  fetch_loop parse api years =
  {| all_dfs := fetched parse api years;
     failed_years := failures parse api years;
     out := loop_lines parse api years |}.
Proof. unfold fetch_loop. now rewrite loop_from. Qed.

Lemma fetched_In (years : list Z) (df : DataFrame) :
  In df (fetched parse api years) <->
  exists y, In y years /\ fetch_acs_county_year parse api y = Ok df.
Proof.
  unfold fetched. rewrite in_flat_map. split.
  - intros (y & Hy & H). exists y. split; [assumption |].
    destruct (fetch_acs_county_year parse api y); simpl in H;
      [ destruct H as [-> |[]]; reflexivity | contradiction ].
  - intros (y & Hy & H). exists y. split; [assumption |].
    rewrite H. now left.
Qed.

Lemma failures_In (years : list Z) (y : Z) (e : string) :
  In (y, e) (failures parse api years) <->
  In y years /\ fetch_acs_county_year parse api y = Exn e.
Proof.
  unfold failures. rewrite in_flat_map. split.
  - intros (y' & Hy & H).
    destruct (fetch_acs_county_year parse api y') eqn:E; simpl in H;
      [ contradiction | destruct H as [H |[]] ].
    injection H as -> ->. now split.
  - intros (Hy & H). exists y. split; [assumption |].
    rewrite H. now left.
Qed.

Lemma failures_years (years : list Z) (y : Z) :
  In y (map fst (failures parse api years)) <->
  In y years /\ exists e, fetch_acs_county_year parse api y = Exn e.
Proof.
  rewrite in_map_iff. split.
  - intros ([y' e] & <- & H). apply failures_In in H as [H1 H2].
    split; [assumption | now exists e].
  - intros (Hy & e & H). exists (y, e). split; [reflexivity |].
    now apply failures_In.
Qed.

Lemma accumulators_length (years : list Z) :
  (List.length (fetched parse api years)
   + List.length (failures parse api years) = List.length years)%nat.
Proof.
  induction years as [| y years IH]; simpl; [reflexivity |].
  rewrite !length_app.
  destruct (fetch_acs_county_year parse api y); simpl; lia.
Qed.

Lemma loop_lines_only (years : list Z) :
  forallb is_loop_line (loop_lines parse api years) = true.
Proof.
  induction years as [| y years IH]; simpl; [reflexivity |].
  rewrite IH. now destruct (fetch_acs_county_year parse api y).
Qed.

Lemma all_failed (years : list Z) :
  (forall y, In y years ->
     exists e, fetch_acs_county_year parse api y = Exn e) ->
  fetched parse api years = [] /\
  map fst (failures parse api years) = years /\
  loop_lines parse api years =
    map (fun f => PrintFail (fst f) (snd f)) (failures parse api years).
Proof.
  induction years as [| y years IH]; intros H; simpl; [auto |].
  destruct (H y (or_introl eq_refl)) as [e He].
  destruct IH as (IH1 & IH2 & IH3).
  { intros z Hz. apply H. now right. }
  rewrite He. simpl. rewrite IH1, IH2, IH3. auto.
Qed.

End Loop.

Lemma failures_count (parse : string -> option num) (api : Z -> response)
  (years : list Z) (y : Z) :
  count_occ Z.eq_dec (map fst (failures parse api years)) y =
  match fetch_acs_county_year parse api y with
  | Ok _ => O
  | Exn _ => count_occ Z.eq_dec years y
  end.
Proof.
  induction years as [| z years IH]; simpl.
  - now destruct (fetch_acs_county_year parse api y).
  - rewrite map_app, count_occ_app, IH.
    destruct (Z.eq_dec z y) as [-> | Hne].
    + destruct (fetch_acs_county_year parse api y); simpl; [reflexivity |].
      now destruct (Z.eq_dec y y).
    + destruct (fetch_acs_county_year parse api z); simpl;
        [ reflexivity | ].
      destruct (Z.eq_dec z y); [contradiction | reflexivity].
Qed.

(** ** Event order *)

Lemma never_after_skip (p q : event -> bool) (l1 l2 : list event) :
  forallb (fun e => negb (q e)) l1 = true ->
  never_after p q (l1 ++ l2) = never_after p q l2.
Proof.
  induction l1 as [| e l1 IH]; simpl; [reflexivity |].
  intros H. apply andb_true_iff in H as [He H].
  apply negb_true_iff in He. rewrite He. simpl. now apply IH.
Qed.

Lemma never_after_none (p q : event -> bool) (l : list event) :
  forallb (fun e => negb (p e)) l = true -> never_after p q l = true.
Proof.
  induction l as [| e l IH]; simpl; [reflexivity |].
  intros H. apply andb_true_iff in H as [_ H].
  rewrite (IH H), H. now destruct (q e).
Qed.

Lemma forallb_weaken (p q : event -> bool) (l : list event) :
  (forall e, p e = true -> q e = true) ->
  forallb p l = true -> forallb q l = true.
Proof.
  intros Hpq H. rewrite forallb_forall in *. auto.
Qed.

Lemma failed_listing_only (failed : list (Z * string)) :
  forallb is_failed_listing (failed_listing failed) = true.
Proof.
  destruct failed as [| f failed]; [reflexivity |].
  unfold failed_listing. cbn [forallb is_failed_listing andb].
  now induction (f :: failed) as [| g l IH].
Qed.

Lemma filter_none (p : event -> bool) (l : list event) :
  forallb (fun e => negb (p e)) l = true -> filter p l = [].
Proof.
  induction l as [| e l IH]; simpl; [reflexivity |].
  intros H. apply andb_true_iff in H as [He H].
  apply negb_true_iff in He. rewrite He. now apply IH.
Qed.

(** ** Sorting and grouping *)

Lemma insert_by_In {A : Type} (le : A -> A -> bool) (x a : A) (l : list A) :
  In a (insert_by le x l) <-> a = x \/ In a l.
Proof.
  induction l as [| h t IH]; simpl.
  - intuition.
  - destruct (le x h); simpl; rewrite ?IH; intuition.
Qed.

Lemma sort_by_In {A : Type} (le : A -> A -> bool) (a : A) (l : list A) :
  In a (sort_by le l) <-> In a l.
Proof.
  induction l as [| h t IH]; simpl; [reflexivity |].
  rewrite insert_by_In, IH. intuition.
Qed.

Lemma group_keys_In (df : DataFrame) (y : Z) :
  In y (group_keys df) <-> In y (map year df).
Proof.
  unfold group_keys. now rewrite nodup_In, sort_by_In.
Qed.

(** ** The three ways the script ends *)

Lemma group_keys_nil (df : DataFrame) : group_keys df = [] <-> df = [].
Proof.
  split; [| intros ->; reflexivity].
  intros H. destruct df as [| r df]; [reflexivity |].
  assert (Hin : In (year r) (group_keys (r :: df)))
    by (apply group_keys_In; now left).
  rewrite H in Hin. contradiction.
Qed.

Lemma corr_by_year_none (df : DataFrame) : corr_by_year df = None <-> df = [].
Proof.
  rewrite <- group_keys_nil. unfold corr_by_year.
  destruct (group_keys df); split; congruence.
Qed.

Lemma corr_by_year_some (df : DataFrame) :
  df <> [] ->
  corr_by_year df =
  Some (sort_by (fun a b => Z.leb (fst a) (fst b))
          (map (fun y => (y, overall_corr (get_group df y)))
             (group_keys df))).
Proof.
  intros H. unfold corr_by_year.
  destruct (group_keys df) eqn:K; [| reflexivity].
  apply group_keys_nil in K. contradiction.
Qed.

Lemma main_raises (parse : string -> option num) (api : Z -> response) :
  fetched parse api YEARS = [] ->
  main parse api =
  {| trace := loop_lines parse api YEARS;
     exit := RuntimeError
       "No data fetched. Check network / years / API availability." |}.
Proof.
  intros H. unfold main. rewrite fetch_loop_eq. cbn [all_dfs failed_years out].
  now rewrite H.
Qed.

Lemma main_type_error (parse : string -> option num) (api : Z -> response) :
  fetched parse api YEARS <> [] ->
  pd_concat (fetched parse api YEARS) = [] ->
  main parse api =
  {| trace := loop_lines parse api YEARS ++ [PrintTrend []];
     exit := TypeError |}.
Proof.
  intros H E. unfold main. rewrite fetch_loop_eq.
  cbn [all_dfs failed_years out].
  destruct (fetched parse api YEARS) as [| df dfs]; [contradiction |].
  now rewrite E.
Qed.

Lemma main_finishes (parse : string -> option num) (api : Z -> response)
  (corr : list (Z * option R)) :
  corr_by_year (pd_concat (fetched parse api YEARS)) = Some corr ->
  let final_df := pd_concat (fetched parse api YEARS) in
  let trend := state_trend final_df in
  main parse api =
  {| trace :=
       loop_lines parse api YEARS
       ++ [PrintTrend trend;
           PrintCorrByYear corr;
           PrintOverall (overall_corr final_df);
           PltShow
             "Maryland Avg County Median Household Income (ACS 5-year)"
             (map t_year trend) (map avg_income trend);
           PltShow "Maryland Avg County Gini Index (ACS 5-year)"
             (map t_year trend) (map avg_gini trend)]
       ++ failed_listing (failures parse api YEARS);
     exit := Finished |}.
Proof.
  intros H. unfold main. rewrite fetch_loop_eq.
  cbn [all_dfs failed_years out].
  destruct (fetched parse api YEARS) as [| df dfs] eqn:E.
  - discriminate.
  - now rewrite H.
Qed.

(** A run ends in exactly one of three ways, told apart by the list of
    fetched frames and the combined table. *)
Lemma main_cases (parse : string -> option num) (api : Z -> response) :
  (fetched parse api YEARS = [] /\
   exit (main parse api) =
     RuntimeError
       "No data fetched. Check network / years / API availability.") \/
  (fetched parse api YEARS <> [] /\
   pd_concat (fetched parse api YEARS) = [] /\
   exit (main parse api) = TypeError) \/
  (pd_concat (fetched parse api YEARS) <> [] /\
   exit (main parse api) = Finished).
Proof.
  destruct (fetched parse api YEARS) as [| df dfs] eqn:E.
  - left. split; [reflexivity |]. now rewrite (main_raises parse api E).
  - right.
    assert (Hne : fetched parse api YEARS <> []) by (rewrite E; discriminate).
    rewrite <- E.
    destruct (pd_concat (fetched parse api YEARS)) as [| r rs] eqn:T.
    + left. repeat split; try assumption.
      now rewrite (main_type_error parse api Hne T).
    + right. split; [discriminate |].
      destruct (corr_by_year (r :: rs)) as [corr |] eqn:K.
      * rewrite <- T in K. now rewrite (main_finishes parse api corr K).
      * apply corr_by_year_none in K. discriminate.
Qed.

(** ** Claims on the loop and the guard *)

(** C5: after the loop every configured year is in exactly one
    accumulator.  [all_dfs] holds one frame per year whose fetch returned
    and nothing else, [failed_years] one entry per year whose fetch raised
    and nothing else; a returned year is absent from [failed_years], a
    failed year occurs there exactly once, and the two lists together have
    as many entries as there are years. *)
Theorem every_year_in_one_accumulator
  (parse : string -> option num) (api : Z -> response) :
  let st := fetch_loop parse api YEARS in
  all_dfs st = fetched parse api YEARS /\
  failed_years st = failures parse api YEARS /\
  (List.length (all_dfs st) + List.length (failed_years st)
   = List.length YEARS)%nat /\
  Forall (fun y =>
            match fetch_acs_county_year parse api y with
            | Ok df =>
                In df (all_dfs st) /\
                ~ In y (map fst (failed_years st))
            | Exn e =>
                In (y, e) (failed_years st) /\
                count_occ Z.eq_dec (map fst (failed_years st)) y = 1%nat
            end) YEARS.
Proof.
  cbv zeta. rewrite fetch_loop_eq. cbn [all_dfs failed_years].
  repeat split.
  - apply accumulators_length.
  - apply Forall_forall. intros y Hy.
    destruct (fetch_acs_county_year parse api y) as [df | e] eqn:E.
    + split.
      * apply fetched_In. now exists y.
      * rewrite failures_years. intros (_ & e & He). congruence.
    + split.
      * now apply failures_In.
      * rewrite failures_count, E.
        unfold YEARS in *. simpl in Hy.
        repeat (destruct Hy as [<- | Hy]; [reflexivity |]). contradiction.
Qed.

(** C10: a configured year whose fetch returns a frame with no rows is a
    success: the empty frame is in [all_dfs], the loop reports the year as
    fetched with 0 rows, the year is not in [failed_years], and the guard
    does not raise, whatever the other years did. *)
Theorem empty_year_is_a_success
  (parse : string -> option num) (api : Z -> response) (y : Z) :
  In y YEARS ->
  fetch_acs_county_year parse api y = Ok [] ->
  let st := fetch_loop parse api YEARS in
  In [] (all_dfs st) /\
  In (PrintOk y 0) (out st) /\
  ~ In y (map fst (failed_years st)) /\
  all_dfs st <> [] /\
  (forall msg, exit (main parse api) <> RuntimeError msg).
Proof.
  intros Hy E. cbv zeta. rewrite fetch_loop_eq.
  cbn [all_dfs failed_years out].
  assert (Hin : In [] (fetched parse api YEARS))
    by (apply fetched_In; now exists y).
  assert (Hne : fetched parse api YEARS <> [])
    by (intros H; rewrite H in Hin; contradiction).
  repeat split; try assumption.
  - unfold loop_lines. apply in_map_iff. exists y. now rewrite E.
  - rewrite failures_years. intros (_ & e & He). congruence.
  - destruct (main_cases parse api) as [[H _] | [(_ & _ & H) | [_ H]]].
    + contradiction.
    + rewrite H. discriminate.
    + rewrite H. discriminate.
Qed.

Lemma empty_year_is_a_success_witness :
  let st := fetch_loop parse_decimal api_blank YEARS in
  In [] (all_dfs st) /\
  In (PrintOk 2012 0) (out st) /\
  ~ In 2012 (map fst (failed_years st)) /\
  all_dfs st <> [] /\
  (forall msg, exit (main parse_decimal api_blank) <> RuntimeError msg).
Proof.
  apply (empty_year_is_a_success parse_decimal api_blank 2012).
  - simpl. auto.
  - reflexivity.
Defined.

(** C4: when the fetch of every configured year raises, the script stops
    at the guard with a [RuntimeError]; all it has written by then are the
    loop's [FAIL] lines, one per year: no table, no correlation, no
    chart, no failed-year listing. *)
Theorem all_years_fail_raises
  (parse : string -> option num) (api : Z -> response) :
  (forall y, In y YEARS ->
     exists e, fetch_acs_county_year parse api y = Exn e) ->
  exit (main parse api) =
    RuntimeError "No data fetched. Check network / years / API availability."
  /\ trace (main parse api) =
       map (fun f => PrintFail (fst f) (snd f)) (failures parse api YEARS)
  /\ map fst (failures parse api YEARS) = YEARS
  /\ forallb is_loop_line (trace (main parse api)) = true.
Proof.
  intros H. destruct (all_failed parse api YEARS H) as (H1 & H2 & H3).
  rewrite (main_raises parse api H1). cbn [trace exit].
  repeat split; try assumption. apply loop_lines_only.
Qed.

Lemma all_years_fail_raises_witness :
  exit (main parse_decimal api_down) =
    RuntimeError "No data fetched. Check network / years / API availability."
  /\ trace (main parse_decimal api_down) =
       map (fun f => PrintFail (fst f) (snd f))
           (failures parse_decimal api_down YEARS)
  /\ map fst (failures parse_decimal api_down YEARS) = YEARS
  /\ forallb is_loop_line (trace (main parse_decimal api_down)) = true.
Proof.
  apply (all_years_fail_raises parse_decimal api_down).
  intros y _. exists "500 Server Error". reflexivity.
Defined.

(** C1: the run in which one year is served and its only row is dropped
    for a missing income.  The combined table has no rows, yet the guard
    passes (the list of frames holds one empty frame), the yearly
    aggregate is computed and printed with no rows, and the script then
    ends in the [TypeError] of the yearly correlation. *)
Lemma empty_table_passes_guard :
  combined_table parse_decimal api_blank = [] /\
  main parse_decimal api_blank =
  {| trace :=
       [PrintOk 2012 0;
        PrintFail 2014 "500 Server Error";
        PrintFail 2016 "500 Server Error";
        PrintFail 2018 "500 Server Error";
        PrintFail 2022 "500 Server Error";
        PrintTrend []];
     exit := TypeError |}.
Proof. split; reflexivity. Qed.

(** C3, as stated, fails: in a run with a failed year the failed-year
    listing is written after the charts were shown. *)
Lemma failed_listing_follows_charts :
  never_after is_reporter is_show
    (trace (main parse_decimal api_single)) = false.
Proof. vm_compute. reflexivity. Qed.

(** C3, amended: in every run no table of the reporter is written after a
    chart and no chart is shown after a line of the failed-year listing;
    and a run whose combined table has rows ends normally having written,
    after the loop's lines: the yearly aggregate, the yearly correlation
    and the overall correlation, then the two charts, then, when some year
    failed, the failed-year heading and one line per failed year with its
    message, in loop order, and nothing else. *)
Theorem tables_then_charts_then_failed_years
  (parse : string -> option num) (api : Z -> response) :
  let tr := trace (main parse api) in
  let final_df := combined_table parse api in
  let trend := state_trend final_df in
  never_after is_table is_show tr = true /\
  never_after is_show is_failed_listing tr = true /\
  match final_df with
  | [] => True
  | _ :: _ =>
      exit (main parse api) = Finished /\
      exists corr,
        corr_by_year final_df = Some corr /\
        tr =
          (loop_lines parse api YEARS
          ++ [PrintTrend trend;
              PrintCorrByYear corr;
              PrintOverall (overall_corr final_df);
              PltShow
                "Maryland Avg County Median Household Income (ACS 5-year)"
                (map t_year trend) (map avg_income trend);
              PltShow "Maryland Avg County Gini Index (ACS 5-year)"
                (map t_year trend) (map avg_gini trend)]
          ++ match failures parse api YEARS with
             | [] => []
             | f :: fs =>
                 PrintFailedHeader
                 :: map (fun x => PrintFailedYear (fst x) (snd x)) (f :: fs)
             end)%list
  end.
Proof.
  cbv zeta. unfold combined_table. rewrite fetch_loop_eq. cbn [all_dfs].
  pose proof (loop_lines_only parse api YEARS) as L.
  pose proof (failed_listing_only (failures parse api YEARS)) as F.
  destruct (fetched parse api YEARS) as [| df dfs] eqn:E.
  - rewrite (main_raises parse api E). cbn [trace exit pd_concat List.concat].
    repeat split; try assumption; apply never_after_none;
      revert L; apply forallb_weaken; now intros [].
  - assert (Hne : fetched parse api YEARS <> []) by (rewrite E; discriminate).
    rewrite <- E.
    destruct (pd_concat (fetched parse api YEARS)) as [| r rs] eqn:T.
    + rewrite (main_type_error parse api Hne T). cbn [trace exit].
      repeat split.
      * rewrite never_after_skip
          by (revert L; apply forallb_weaken; now intros []).
        reflexivity.
      * rewrite never_after_skip
          by (revert L; apply forallb_weaken; now intros []).
        reflexivity.
    + destruct (corr_by_year (r :: rs)) as [corr |] eqn:K;
        [| apply corr_by_year_none in K; discriminate].
      rewrite <- T in K.
      rewrite (main_finishes parse api corr K). cbn [trace exit].
      rewrite T in *. repeat split.
      * rewrite never_after_skip
          by (revert L; apply forallb_weaken; now intros []).
        cbn [app never_after is_show is_table forallb negb andb].
        assert (N : forallb (fun x => negb (is_table x))
                      (failed_listing (failures parse api YEARS)) = true)
          by (revert F; apply forallb_weaken; now intros []).
        rewrite N. now apply never_after_none.
      * rewrite never_after_skip
          by (revert L; apply forallb_weaken; now intros []).
        cbn [app never_after is_failed_listing andb].
        apply never_after_none.
        revert F; apply forallb_weaken; now intros [].
      * exists corr. split; [reflexivity |].
        unfold failed_listing.
        now destruct (failures parse api YEARS).
Qed.

(** ** Claims on the aggregator *)




Lemma complete_pairs_length (xs ys : list (option num)) :
  (List.length (complete_pairs xs ys) <= List.length xs)%nat.
Proof.
  unfold complete_pairs. revert ys.
  induction xs as [| x xs IH]; intros [| y ys]; simpl; try lia.
  rewrite length_app. specialize (IH ys).
  destruct x, y; simpl; lia.
Qed.

Lemma finite_pairs_length (ps : list (num * num)) (qs : list (Q * Q)) :
  finite_pairs ps = Some qs -> List.length qs = List.length ps.
Proof.
  revert qs. induction ps as [| [a b] ps IH]; intros qs H; simpl in H.
  - now injection H as <-.
  - destruct a, b; try discriminate.
    destruct (finite_pairs ps) as [qs' |]; [| discriminate].
    injection H as <-. simpl. now rewrite (IH qs' eq_refl).
Qed.

Lemma series_corr_short (xs ys : list (option num)) :
  (List.length xs < 2)%nat -> series_corr xs ys = None.
Proof.
  intros H. unfold series_corr.
  pose proof (complete_pairs_length xs ys) as L.
  destruct (finite_pairs (complete_pairs xs ys)) as [qs |] eqn:E;
    [| reflexivity].
  apply finite_pairs_length in E. unfold pearson, corr_sums.
  destruct (Nat.ltb_spec (List.length qs) 2); [reflexivity | lia].
Qed.

(** C6: the run in which one year is served and its only row is dropped.
    Year 2012 was fetched and has no row (fewer than two) in the combined
    table; computing the yearly correlations raises [TypeError] instead
    of giving NaN, and the script ends there. *)
Lemma yearly_corr_raises_without_rows :
  fetch_acs_county_year parse_decimal api_blank 2012 = Ok [] /\
  rows_of_year (combined_table parse_decimal api_blank) 2012 = 0%nat /\
  corr_by_year (combined_table parse_decimal api_blank) = None /\
  exit (main parse_decimal api_blank) = TypeError.
Proof. repeat split; reflexivity. Qed.

(** ** Scenario A *)

(** C7: one served year with three counties, incomes 50000, 60000, 70000
    and Gini indexes 0.40, 0.42, 0.44 (the other years fail): the yearly
    aggregate is the single row mean income 60000, median income 60000,
    three counties (and mean and median Gini 0.42), and the year's
    correlation is 1. *)
Theorem scenario_three_counties :
  let df := combined_table parse_decimal api_three in
  state_trend df =
    [{| t_year := 2012;
        avg_income := Some (Fin 60000);
        median_income := Some (Fin 60000);
        avg_gini := Some (Fin (21 # 50));
        median_gini := Some (Fin (21 # 50));
        n_counties := 3 |}] /\
  corr_by_year df = Some [(2012, Some 1%R)].
Proof.
  cbv zeta. split; [vm_compute; reflexivity |].
  unfold corr_by_year.
  assert (K : group_keys (combined_table parse_decimal api_three) = [2012])
    by (vm_compute; reflexivity).
  rewrite K. cbn [map sort_by fold_right insert_by].
  do 3 f_equal. unfold overall_corr, series_corr.
  assert (P : exists ps,
             finite_pairs
               (complete_pairs
                  (map income
                     (get_group (combined_table parse_decimal api_three) 2012))
                  (map gini
                     (get_group (combined_table parse_decimal api_three) 2012)))
             = Some ps /\
             exists sxy sxx syy,
               corr_sums ps = Some (sxy, sxx, syy) /\
               (sxy == 400)%Q /\ (sxx == 200000000)%Q /\
               (syy == 8 # 10000)%Q).
  { eexists. split; [vm_compute; reflexivity |].
    eexists _, _, _. split; [vm_compute; reflexivity |].
    repeat split; vm_compute; reflexivity. }
  destruct P as (ps & -> & sxy & sxx & syy & S & Hxy & Hxx & Hyy).
  unfold pearson. rewrite S.
  rewrite (Qeq_eqR _ _ Hxy), (Qeq_eqR _ _ Hxx), (Qeq_eqR _ _ Hyy).
  f_equal.
  assert (X : (0 <= Q2R 200000000)%R) by (unfold Q2R; simpl; lra).
  assert (Y : (0 <= Q2R (8 # 10000))%R) by (unfold Q2R; simpl; lra).
  rewrite <- (sqrt_mult _ _ X Y).
  replace (Q2R 200000000 * Q2R (8 # 10000))%R with (400 * 400)%R
    by (unfold Q2R; simpl; lra).
  rewrite sqrt_square by lra.
  unfold Q2R; simpl; lra.
Qed.

(** ** The fetcher *)

Lemma dropna_notna (df : DataFrame) :
  Forall (fun r => income r <> None /\ gini r <> None) (dropna df).
Proof.
  apply Forall_forall. intros r Hr. apply filter_In in Hr as [_ Hr].
  apply andb_true_iff in Hr as [Hi Hg].
  destruct (income r), (gini r); try discriminate. now split.
Qed.



(** * Further properties *)

(** ** The fetcher, row by row *)

Lemma fetch_row_facts (parse : string -> option num) (api : Z -> response)
  (y : Z) (df : DataFrame) (r : row) :
  fetch_acs_county_year parse api y = Ok df -> In r df ->
  year r = y /\ income r <> None /\ gini r <> None.
Proof.
  unfold fetch_acs_county_year.
  destruct (api y) as [msg | rows]; [discriminate |].
  intros H Hr. injection H as <-.
  pose proof (dropna_notna (map (build_row parse y) rows)) as N.
  rewrite Forall_forall in N. split; [| now apply N].
  apply filter_In in Hr as [Hr _].
  apply in_map_iff in Hr as (c & <- & _). reflexivity.
Qed.

(** X1: every row of a frame the fetcher returns for a year carries that
    year in its [year] column. *)
Theorem fetched_rows_carry_year
  (parse : string -> option num) (api : Z -> response) (y : Z)
  (df : DataFrame) :
  fetch_acs_county_year parse api y = Ok df ->
  Forall (fun r => year r = y) df.
Proof.
  intros H. apply Forall_forall. intros r Hr.
  now destruct (fetch_row_facts parse api y df r H Hr).
Qed.

Lemma fetched_rows_carry_year_witness :
  exists df,
    fetch_acs_county_year parse_decimal api_three 2012 = Ok df /\
    df <> [] /\
    Forall (fun r => year r = 2012) df.
Proof.
  eexists. split; [vm_compute; reflexivity |].
  split; [discriminate |].
  apply (fetched_rows_carry_year parse_decimal api_three 2012).
  reflexivity.
Defined.

(** ** The loop and the script as a whole *)

(** X4: over any list of years the loop writes exactly one progress line
    per year, in the order of the list, and each year adds exactly one
    entry to one of the two accumulators. *)
Theorem loop_one_line_per_year
  (parse : string -> option num) (api : Z -> response) (years : list Z) :
  let st := fetch_loop parse api years in
  map line_year (out st) = map Some years /\
  (List.length (all_dfs st) + List.length (failed_years st)
   = List.length years)%nat.
Proof.
  cbv zeta. rewrite fetch_loop_eq. cbn [out all_dfs failed_years].
  split; [| apply accumulators_length].
  unfold loop_lines. rewrite map_map.
  apply map_ext. intros y.
  now destruct (fetch_acs_county_year parse api y).
Qed.

Lemma concat_length (dfs : list DataFrame) :
  List.length (pd_concat dfs)
  = list_sum (map (fun df : DataFrame => List.length df) dfs).
Proof.
  unfold pd_concat.
  induction dfs as [| df dfs IH]; simpl; [reflexivity |].
  now rewrite length_app, IH.
Qed.

Lemma loop_lines_rows (parse : string -> option num) (api : Z -> response)
  (years : list Z) :
  list_sum (map ok_rows (loop_lines parse api years)) =
  list_sum (map (fun df : DataFrame => List.length df)
              (fetched parse api years)).
Proof.
  unfold loop_lines, fetched.
  induction years as [| y years IH]; [reflexivity |].
  cbn [flat_map map]. rewrite map_app, list_sum_app, <- IH.
  destruct (fetch_acs_county_year parse api y); simpl; lia.
Qed.

Lemma no_ok_rows (l : list event) :
  forallb (fun e => negb (is_loop_line e)) l = true ->
  list_sum (map ok_rows l) = O.
Proof.
  induction l as [| e l IH]; simpl; [reflexivity |].
  intros H. apply andb_true_iff in H as [He H].
  rewrite (IH H). now destruct e.
Qed.

(** X5: in every run the row counts of the loop's [OK] lines add up to the
    number of rows of the combined table. *)
Theorem ok_lines_sum_to_combined_rows
  (parse : string -> option num) (api : Z -> response) :
  list_sum (map ok_rows (trace (main parse api)))
  = List.length (combined_table parse api).
Proof.
  unfold combined_table. rewrite fetch_loop_eq. cbn [all_dfs].
  rewrite concat_length, <- loop_lines_rows.
  destruct (fetched parse api YEARS) as [| df dfs] eqn:E.
  - now rewrite (main_raises parse api E).
  - assert (Hne : fetched parse api YEARS <> []) by (rewrite E; discriminate).
    destruct (corr_by_year (pd_concat (fetched parse api YEARS)))
      as [corr |] eqn:K.
    + rewrite (main_finishes parse api corr K). cbn [trace].
      rewrite !map_app, !list_sum_app.
      rewrite (no_ok_rows (failed_listing _)).
      * cbn [map ok_rows list_sum fold_right]. lia.
      * generalize (failed_listing_only (failures parse api YEARS)).
        apply forallb_weaken. now intros [].
    + apply corr_by_year_none in K.
      rewrite (main_type_error parse api Hne K). cbn [trace].
      rewrite map_app, list_sum_app. cbn [map ok_rows list_sum fold_right].
      lia.
Qed.

Lemma fetched_nil_iff (parse : string -> option num) (api : Z -> response)
  (years : list Z) :
  fetched parse api years = [] <->
  (forall y, In y years ->
     exists e, fetch_acs_county_year parse api y = Exn e).
Proof.
  split.
  - intros H y Hy.
    destruct (fetch_acs_county_year parse api y) as [df | e] eqn:E;
      [| now exists e].
    assert (Hin : In df (fetched parse api years))
      by (apply fetched_In; now exists y).
    rewrite H in Hin. contradiction.
  - intros H. now apply all_failed.
Qed.

(** X6: the script ends in the guard's [RuntimeError] exactly when the
    fetch of every configured year raised; a single returned year is
    enough for the run to pass the guard. *)
Theorem raises_iff_every_year_failed
  (parse : string -> option num) (api : Z -> response) :
  (exists msg, exit (main parse api) = RuntimeError msg) <->
  (forall y, In y YEARS ->
     exists e, fetch_acs_county_year parse api y = Exn e).
Proof.
  rewrite <- fetched_nil_iff. split.
  - intros [msg H].
    destruct (main_cases parse api) as [[E _] | [(_ & _ & T) | [_ T]]].
    + exact E.
    + rewrite T in H. discriminate.
    + rewrite T in H. discriminate.
  - intros E. rewrite (main_raises parse api E). eexists. reflexivity.
Qed.

Lemma in_failed_listing (failed : list (Z * string)) (y : Z) (e : string) :
  In (PrintFailedYear y e) (failed_listing failed) <-> In (y, e) failed.
Proof.
  destruct failed as [| f failed]; [simpl; tauto |].
  unfold failed_listing. generalize (f :: failed). intros l.
  split.
  - intros [H | H]; [discriminate |].
    apply in_map_iff in H as ([y' e'] & H & Hin).
    simpl in H. now injection H as -> ->.
  - intros H. right. apply in_map_iff. now exists (y, e).
Qed.

(** X7: the failed-year listing names a year with a message exactly when
    that configured year's fetch raised with that message and the combined
    table of the run has rows; its heading is written exactly when some
    year failed and the combined table has rows. *)
Theorem failed_listing_names_failed_years
  (parse : string -> option num) (api : Z -> response) (y : Z) (e : string) :
  (In (PrintFailedYear y e) (trace (main parse api)) <->
   In y YEARS /\ fetch_acs_county_year parse api y = Exn e /\
   combined_table parse api <> []) /\
  (In PrintFailedHeader (trace (main parse api)) <->
   failures parse api YEARS <> [] /\ combined_table parse api <> []).
Proof.
  unfold combined_table. rewrite fetch_loop_eq. cbn [all_dfs].
  pose proof (loop_lines_only parse api YEARS) as L.
  rewrite forallb_forall in L.
  destruct (fetched parse api YEARS) as [| df dfs] eqn:E.
  - rewrite (main_raises parse api E). cbn [trace pd_concat List.concat].
    split; split.
    + intros H. specialize (L _ H). discriminate.
    + intros (_ & _ & H). now contradiction H.
    + intros H. specialize (L _ H). discriminate.
    + intros (_ & H). now contradiction H.
  - assert (Hne : fetched parse api YEARS <> []) by (rewrite E; discriminate).
    rewrite <- E in *.
    destruct (corr_by_year (pd_concat (fetched parse api YEARS)))
      as [corr |] eqn:K.
    + assert (T : pd_concat (fetched parse api YEARS) <> []).
      { intros T. apply corr_by_year_none in T. congruence. }
      rewrite (main_finishes parse api corr K). cbn [trace]. split.
      * rewrite !in_app_iff, in_failed_listing, failures_In. split.
        -- intros [H | [H | H]].
           ++ specialize (L _ H). discriminate.
           ++ exfalso. simpl in H.
              repeat (destruct H as [H | H]; [discriminate |]).
              contradiction.
           ++ destruct H. repeat split; assumption.
        -- intros (H1 & H2 & _). right. right. now split.
      * rewrite !in_app_iff. split.
        -- intros [H | [H | H]].
           ++ specialize (L _ H). discriminate.
           ++ exfalso. simpl in H.
              repeat (destruct H as [H | H]; [discriminate |]).
              contradiction.
           ++ split; [| assumption].
              intros F. rewrite F in H. contradiction.
        -- intros (H & _). right. right.
           destruct (failures parse api YEARS); [congruence | now left].
    + apply corr_by_year_none in K.
      rewrite (main_type_error parse api Hne K). cbn [trace]. split; split.
      * rewrite in_app_iff. intros [H | [H | []]];
          [specialize (L _ H) |]; discriminate.
      * intros (_ & _ & H). now contradiction H.
      * rewrite in_app_iff. intros [H | [H | []]];
          [specialize (L _ H) |]; discriminate.
      * intros (_ & H). now contradiction H.
Qed.

(** ** Grouping *)

Lemma insert_by_sorted (x : Z) (l : list Z) :
  StronglySorted Z.le l -> StronglySorted Z.le (insert_by Z.leb x l).
Proof.
  induction 1 as [| h t Ht IH Hh]; simpl.
  - repeat constructor.
  - destruct (Z.leb_spec x h) as [Hle | Hgt].
    + constructor; [now constructor |].
      constructor; [assumption |].
      eapply Forall_impl; [| exact Hh]. intros z Hz. simpl in Hz. lia.
    + constructor; [assumption |].
      apply Forall_forall. intros z Hz. apply insert_by_In in Hz as [-> | Hz].
      * lia.
      * rewrite Forall_forall in Hh. now apply Hh.
Qed.

Lemma sort_by_sorted (l : list Z) : StronglySorted Z.le (sort_by Z.leb l).
Proof.
  induction l as [| x l IH]; simpl; [constructor |].
  now apply insert_by_sorted.
Qed.

Lemma nodup_sorted (l : list Z) :
  StronglySorted Z.le l -> StronglySorted Z.lt (nodup Z.eq_dec l).
Proof.
  induction 1 as [| h t Ht IH Hh]; simpl; [constructor |].
  destruct (in_dec Z.eq_dec h t) as [Hin | Hnin]; [assumption |].
  constructor; [assumption |].
  apply Forall_forall. intros z Hz. apply nodup_In in Hz.
  rewrite Forall_forall in Hh. specialize (Hh z Hz).
  assert (z <> h) by (intros ->; contradiction). lia.
Qed.

Lemma group_keys_ascending (df : DataFrame) :
  StronglySorted Z.lt (group_keys df).
Proof. apply nodup_sorted, sort_by_sorted. Qed.

(** Sorting by a key a list whose keys already ascend changes nothing. *)
Lemma sort_by_key_id {A : Type} (key : A -> Z) (l : list A) :
  StronglySorted Z.lt (map key l) ->
  sort_by (fun a b => Z.leb (key a) (key b)) l = l.
Proof.
  induction l as [| x l IH]; simpl; [reflexivity |].
  intros H. inversion H as [| ? ? Hl Hx]; subst.
  rewrite (IH Hl). destruct l as [| h t]; [reflexivity |].
  simpl. inversion Hx as [| ? ? Hh _]; subst.
  destruct (Z.leb_spec (key x) (key h)); [reflexivity | lia].
Qed.

Lemma state_trend_keys (df : DataFrame) :
  map t_year (state_trend df) = group_keys df.
Proof.
  unfold state_trend. rewrite sort_by_key_id.
  - rewrite map_map. cbn [t_year]. apply map_id.
  - rewrite map_map. cbn [t_year]. rewrite map_id.
    apply group_keys_ascending.
Qed.

Lemma corr_by_year_unsorted (df : DataFrame) :
  df <> [] ->
  corr_by_year df =
  Some (map (fun y => (y, overall_corr (get_group df y))) (group_keys df)).
Proof.
  intros H. rewrite (corr_by_year_some df H). f_equal.
  apply sort_by_key_id.
  rewrite map_map. cbn [fst]. rewrite map_id.
  apply group_keys_ascending.
Qed.

(** X8: the yearly aggregate lists its years in strictly ascending order
    (one row per year, no year twice), and they are exactly the years that
    occur in the table; on a table with rows the yearly correlation table
    lists the same years in the same order, and only on a table with no
    rows is it not produced. *)
Theorem yearly_tables_ascend (df : DataFrame) :
  StronglySorted Z.lt (map t_year (state_trend df)) /\
  (forall y, In y (map t_year (state_trend df)) <-> In y (map year df)) /\
  match corr_by_year df with
  | Some corr => map fst corr = map t_year (state_trend df)
  | None => df = []
  end.
Proof.
  rewrite state_trend_keys.
  split; [apply group_keys_ascending |].
  split; [intros y; apply group_keys_In |].
  destruct df as [| r df]; [reflexivity |].
  rewrite corr_by_year_unsorted by discriminate.
  rewrite map_map. cbn [fst]. apply map_id.
Qed.

Lemma list_sum_plus (f g : Z -> nat) (ks : list Z) :
  list_sum (map (fun y => (f y + g y)%nat) ks)
  = (list_sum (map f ks) + list_sum (map g ks))%nat.
Proof. induction ks as [| k ks IH]; simpl; [reflexivity | lia]. Qed.

Lemma list_sum_indicator (k : Z) (c : nat) (ks : list Z) :
  NoDup ks -> In k ks ->
  list_sum (map (fun y => if Z.eqb k y then c else O) ks) = c.
Proof.
  induction 1 as [| h t Hh Ht IH]; intros Hin; [contradiction |].
  cbn [map list_sum fold_right].
  change (fold_right Nat.add O
            (map (fun y => if Z.eqb k y then c else O) t))
    with (list_sum (map (fun y => if Z.eqb k y then c else O) t)).
  destruct Hin as [-> | Hin].
  - rewrite Z.eqb_refl.
    assert (E : list_sum (map (fun y => if Z.eqb k y then c else O) t) = O).
    { clear IH Ht. induction t as [| z t IHt]; [reflexivity |].
      cbn [map list_sum fold_right].
      destruct (Z.eqb_spec k z) as [-> |].
      - contradiction Hh. now left.
      - apply IHt. intros H. apply Hh. now right. }
    lia.
  - destruct (Z.eqb_spec k h) as [-> |]; [contradiction |].
    now rewrite (IH Hin).
Qed.

Lemma group_count_sum (p : row -> bool) (ks : list Z) (df : DataFrame) :
  NoDup ks ->
  (forall r, In r df -> In (year r) ks) ->
  list_sum (map (fun y => List.length (filter p (get_group df y))) ks)
  = List.length (filter p df).
Proof.
  intros Hnd. induction df as [| r df IH]; intros Hin.
  - simpl. clear. induction ks as [| k ks IHk]; simpl; [reflexivity |].
    exact IHk.
  - assert (Hr : In (year r) ks) by (apply Hin; now left).
    assert (IH' : forall r', In r' df -> In (year r') ks)
      by (intros r' H'; apply Hin; now right).
    specialize (IH IH').
    rewrite (map_ext _
      (fun y => ((if Z.eqb (year r) y then (if p r then 1 else 0) else 0)
                 + List.length (filter p (get_group df y)))%nat)).
    + rewrite list_sum_plus, IH, (list_sum_indicator _ _ _ Hnd Hr).
      cbn [filter]. now destruct (p r).
    + intros y. unfold get_group. cbn [filter].
      destruct (Z.eqb (year r) y); [| reflexivity].
      cbn [filter]. now destruct (p r).
Qed.

Lemma state_trend_unsorted (df : DataFrame) :
  state_trend df =
  map (fun y =>
         let g := get_group df y in
         {| t_year := y;
            avg_income := series_mean (map income g);
            median_income := series_median (map income g);
            avg_gini := series_mean (map gini g);
            median_gini := series_median (map gini g);
            n_counties := series_count (map NAME g) |})
      (group_keys df).
Proof.
  unfold state_trend. apply sort_by_key_id.
  rewrite map_map. cbn [t_year]. rewrite map_id.
  apply group_keys_ascending.
Qed.

Lemma group_keys_NoDup (df : DataFrame) : NoDup (group_keys df).
Proof. apply NoDup_nodup. Qed.

Lemma filter_true_id (df : DataFrame) : filter (fun _ => true) df = df.
Proof. induction df as [| r df IH]; simpl; now rewrite ?IH. Qed.

(** X9: grouping by year loses and repeats nothing: over the rows of the
    yearly aggregate the [n_counties] add up to the number of rows of the
    table that carry a name, and the sizes of the year groups add up to
    the number of rows of the table. *)
Theorem groups_partition_table (df : DataFrame) :
  list_sum (map n_counties (state_trend df))
  = List.length (filter (fun r => notna_cell (NAME r)) df) /\
  list_sum (map (rows_of_year df) (map t_year (state_trend df)))
  = List.length df.
Proof.
  split.
  - rewrite state_trend_unsorted, map_map. cbn [n_counties].
    rewrite <- (group_count_sum (fun r => notna_cell (NAME r))
                  (group_keys df) df (group_keys_NoDup df)).
    + f_equal. apply map_ext. intros y. unfold series_count.
      generalize (get_group df y). intros g.
      induction g as [| x g IH]; simpl; [reflexivity |].
      destruct (notna_cell (NAME x)); simpl; now rewrite IH.
    + intros r Hr. apply group_keys_In. now apply in_map.
  - rewrite state_trend_keys.
    transitivity (List.length (filter (fun _ : row => true) df));
      [| now rewrite filter_true_id].
    rewrite <- (group_count_sum (fun _ => true)
                  (group_keys df) df (group_keys_NoDup df)).
    + f_equal. apply map_ext. intros y. unfold rows_of_year.
      now rewrite filter_true_id.
    + intros r Hr. apply group_keys_In. now apply in_map.
Qed.

(** ** Years of a run *)

Lemma combined_table_In (parse : string -> option num) (api : Z -> response)
  (r : row) :
  In r (combined_table parse api) <->
  exists y df,
    In y YEARS /\ fetch_acs_county_year parse api y = Ok df /\ In r df.
Proof.
  unfold combined_table, pd_concat. rewrite fetch_loop_eq. cbn [all_dfs].
  rewrite in_concat. split.
  - intros (df & Hdf & Hr). apply fetched_In in Hdf as (y & Hy & E).
    now exists y, df.
  - intros (y & df & Hy & E & Hr). exists df. split; [| assumption].
    apply fetched_In. now exists y.
Qed.

(** X11: the yearly aggregate of a run has a row for a year exactly when
    the year is configured and its fetch returned a frame with at least
    one row: a failed year, and a year fetched with no rows, have none. *)
Theorem trend_years_are_fetched_years
  (parse : string -> option num) (api : Z -> response) (y : Z) :
  In y (map t_year (state_trend (combined_table parse api))) <->
  In y YEARS /\
  exists df, fetch_acs_county_year parse api y = Ok df /\ df <> [].
Proof.
  rewrite state_trend_keys, group_keys_In, in_map_iff. split.
  - intros (r & Hy & Hr).
    apply combined_table_In in Hr as (y' & df & Hin & E & Hdf).
    destruct (fetch_row_facts parse api y' df r E Hdf) as [Hyr _].
    assert (Hyy : y' = y) by congruence. rewrite Hyy in Hin, E.
    split; [assumption |]. exists df. split; [assumption |].
    intros ->. contradiction.
  - intros (Hin & df & E & Hne).
    destruct df as [| r df]; [congruence |].
    exists r.
    destruct (fetch_row_facts parse api y (r :: df) r E (or_introl eq_refl))
      as [Hyr _].
    split; [assumption |].
    apply combined_table_In. exists y, (r :: df).
    repeat split; try assumption. now left.
Qed.

(** ** Order of the rows *)

(** Insertion sort of two lists with the same elements gives the same
    list, up to the equivalence the order cannot tell apart. *)
Section SortPermutation.

Variable A : Type.
Variable le : A -> A -> bool.
Variable eqv : A -> A -> Prop.

Hypothesis eqv_refl : forall x, eqv x x.
Hypothesis eqv_trans : forall x y z, eqv x y -> eqv y z -> eqv x z.
Hypothesis le_total : forall x y, le x y = true \/ le y x = true.
Hypothesis le_trans :
  forall x y z, le x y = true -> le y z = true -> le x z = true.
Hypothesis le_antisym :
  forall x y, le x y = true -> le y x = true -> eqv x y.
Hypothesis le_compat : forall x h h', eqv h h' -> le x h = le x h'.

Lemma Forall2_eqv_refl (l : list A) : Forall2 eqv l l.
Proof. induction l; constructor; auto. Qed.

Lemma Forall2_eqv_trans (l1 l2 l3 : list A) :
  Forall2 eqv l1 l2 -> Forall2 eqv l2 l3 -> Forall2 eqv l1 l3.
Proof.
  intros H. revert l3.
  induction H as [| x y l1 l2 Hxy _ IH]; intros l3 H3;
    inversion H3; subst; constructor; eauto.
Qed.

Lemma insert_by_eqv (x : A) (l l' : list A) :
  Forall2 eqv l l' ->
  Forall2 eqv (insert_by le x l) (insert_by le x l').
Proof.
  induction 1 as [| h h' t t' Hh Ht IH]; simpl.
  - constructor; auto.
  - rewrite <- (le_compat x h h' Hh).
    destruct (le x h); repeat constructor; auto.
Qed.

Lemma insert_by_swap (x y : A) (s : list A) :
  Forall2 eqv (insert_by le x (insert_by le y s))
              (insert_by le y (insert_by le x s)).
Proof.
  induction s as [| h t IH].
  - simpl. destruct (le x y) eqn:Exy, (le y x) eqn:Eyx.
    + repeat constructor; auto.
    + apply Forall2_eqv_refl.
    + apply Forall2_eqv_refl.
    + destruct (le_total x y); congruence.
  - cbn [insert_by].
    destruct (le y h) eqn:Eyh, (le x h) eqn:Exh; cbn [insert_by].
    + destruct (le x y) eqn:Exy, (le y x) eqn:Eyx; rewrite ?Exh, ?Eyh.
      * constructor; [auto |]. constructor; [auto |].
        apply Forall2_eqv_refl.
      * apply Forall2_eqv_refl.
      * apply Forall2_eqv_refl.
      * destruct (le_total x y); congruence.
    + assert (Exy : le x y = false).
      { destruct (le x y) eqn:E; [| reflexivity].
        rewrite (le_trans x y h E Eyh) in Exh. discriminate. }
      rewrite Exy, Exh, Eyh. apply Forall2_eqv_refl.
    + assert (Eyx : le y x = false).
      { destruct (le y x) eqn:E; [| reflexivity].
        rewrite (le_trans y x h E Exh) in Eyh. discriminate. }
      rewrite Eyx, Exh, Eyh. apply Forall2_eqv_refl.
    + rewrite Exh, Eyh. constructor; [auto | exact IH].
Qed.

Lemma sort_by_perm (l l' : list A) :
  Permutation l l' -> Forall2 eqv (sort_by le l) (sort_by le l').
Proof.
  induction 1 as [| x l l' _ IH | x y l | l1 l2 l3 _ IH1 _ IH2].
  - constructor.
  - simpl. now apply insert_by_eqv.
  - simpl. apply insert_by_swap.
  - eapply Forall2_eqv_trans; eassumption.
Qed.

End SortPermutation.

Lemma sort_years_perm (l l' : list Z) :
  Permutation l l' -> sort_by Z.leb l = sort_by Z.leb l'.
Proof.
  intros H.
  assert (F : Forall2 eq (sort_by Z.leb l) (sort_by Z.leb l')).
  { apply sort_by_perm; try assumption.
    - reflexivity.
    - intros; congruence.
    - intros x y. destruct (Z.leb_spec x y); [now left | right].
      apply Z.leb_le. lia.
    - intros x y z Hxy Hyz. apply Z.leb_le in Hxy, Hyz. apply Z.leb_le. lia.
    - intros x y Hxy Hyx. apply Z.leb_le in Hxy, Hyx. lia.
    - intros; congruence. }
  induction F; congruence.
Qed.

Lemma filter_perm (f : row -> bool) (df df' : DataFrame) :
  Permutation df df' -> Permutation (filter f df) (filter f df').
Proof.
  induction 1 as [| x l l' _ IH | x y l | l1 l2 l3 _ IH1 _ IH2]; simpl.
  - constructor.
  - destruct (f x); [now constructor | assumption].
  - destruct (f x), (f y); try apply Permutation_refl. apply perm_swap.
  - now apply perm_trans with (filter f l2).
Qed.

Lemma group_keys_perm (df df' : DataFrame) :
  Permutation df df' -> group_keys df = group_keys df'.
Proof.
  intros H. unfold group_keys.
  now rewrite (sort_years_perm _ _ (Permutation_map year H)).
Qed.

(** X13: the years the yearly aggregate lists and the county count of
    each do not depend on the order of the rows of the combined table. *)
Theorem trend_years_counts_order_free (df df' : DataFrame) :
  Permutation df df' ->
  map (fun t => (t_year t, n_counties t)) (state_trend df)
  = map (fun t => (t_year t, n_counties t)) (state_trend df').
Proof.
  intros H. rewrite !state_trend_unsorted, !map_map.
  cbn [t_year n_counties]. rewrite (group_keys_perm _ _ H).
  apply map_ext. intros y. f_equal.
  pose proof (filter_perm (fun r => Z.eqb (year r) y) _ _ H) as G.
  fold (get_group df y) in G. fold (get_group df' y) in G.
  unfold series_count. apply Permutation_length.
  assert (E : forall g : DataFrame,
             filter notna_cell (map NAME g)
             = map NAME (filter (fun r => notna_cell (NAME r)) g)).
  { induction g as [| x g IH]; simpl; [reflexivity |].
    destruct (notna_cell (NAME x)); simpl; now rewrite IH. }
  rewrite !E. apply Permutation_map. now apply filter_perm.
Qed.

Lemma trend_years_counts_order_free_witness :
  map (fun t => (t_year t, n_counties t))
    (state_trend (combined_table parse_decimal api_three))
  = map (fun t => (t_year t, n_counties t))
      (state_trend (rev (combined_table parse_decimal api_three))).
Proof.
  apply (trend_years_counts_order_free
           (combined_table parse_decimal api_three)
           (rev (combined_table parse_decimal api_three))).
  apply Permutation_rev.
Defined.

(** ** Pearson's coefficient, bounded *)

Lemma sum_dev_map {T : Type} (f g : T -> Q) (l : list T) :
  sum_dev (map f l) (map g l) =
  Qsum (map (fun p => ((f p - Qsum (map f l) / Qlen (map f l))
                       * (g p - Qsum (map g l) / Qlen (map g l)))%Q) l).
Proof.
  unfold sum_dev.
  generalize (Qsum (map f l) / Qlen (map f l))%Q.
  generalize (Qsum (map g l) / Qlen (map g l))%Q.
  intros mg mf. induction l as [| p l IH]; simpl; [reflexivity |].
  now rewrite IH.
Qed.

Lemma Qsquare_nonneg (x : Q) : (0 <= x * x)%Q.
Proof.
  destruct (Qlt_le_dec x 0) as [H | H].
  - setoid_replace (x * x)%Q with ((- x) * (- x))%Q by ring.
    apply Qmult_le_0_compat; Lqa.lra.
  - now apply Qmult_le_0_compat.
Qed.

Lemma Qsquare_zero (x : Q) : (x * x <= 0)%Q -> (x == 0)%Q.
Proof.
  intros H. pose proof (Qsquare_nonneg x).
  assert (Z : (x * x == 0)%Q) by Lqa.lra.
  apply Qmult_integral in Z as [Z | Z]; exact Z.
Qed.

Lemma cauchy_step (a b S A B : Q) :
  (0 <= A)%Q -> (0 <= B)%Q -> (S * S <= A * B)%Q ->
  ((a * b + S) * (a * b + S) <= (a * a + A) * (b * b + B))%Q.
Proof.
  intros HA HB HS.
  assert (H : (2 * (a * b * S) <= a * a * B + b * b * A)%Q).
  { destruct (Qlt_le_dec 0 A) as [Hp | Hz].
    - assert (K : (0 <= A * (a * a * B + b * b * A - 2 * (a * b * S)))%Q).
      { pose proof (Qsquare_nonneg (a * S - b * A)) as K1.
        assert (K2 : (0 <= (a * a) * (A * B - S * S))%Q).
        { apply Qmult_le_0_compat; [apply Qsquare_nonneg | Lqa.lra]. }
        Lqa.lra. }
      destruct (Qlt_le_dec (a * a * B + b * b * A - 2 * (a * b * S)) 0)
        as [Hn | Hn]; [| Lqa.lra].
      exfalso.
      assert (N : (0 <= A * - (a * a * B + b * b * A - 2 * (a * b * S)))%Q)
        by (apply Qmult_le_0_compat; Lqa.lra).
      assert (Z : (A * (a * a * B + b * b * A - 2 * (a * b * S)) == 0)%Q)
        by Lqa.lra.
      apply Qmult_integral in Z as [Z | Z]; Lqa.lra.
    - assert (E : (A == 0)%Q) by Lqa.lra.
      assert (S0 : (S * S <= 0)%Q) by (rewrite E in HS; Lqa.lra).
      apply Qsquare_zero in S0. rewrite E, S0.
      assert (0 <= a * a * B)%Q
        by (apply Qmult_le_0_compat; [apply Qsquare_nonneg | assumption]).
      Lqa.lra. }
  Lqa.lra.
Qed.

Lemma sum_squares_nonneg {T : Type} (u : T -> Q) (l : list T) :
  (0 <= Qsum (map (fun p => u p * u p) l))%Q.
Proof.
  induction l as [| p l IH]; simpl; [Lqa.lra |].
  pose proof (Qsquare_nonneg (u p)). Lqa.lra.
Qed.

Lemma cauchy_schwarz {T : Type} (u v : T -> Q) (l : list T) :
  (Qsum (map (fun p => u p * v p) l) * Qsum (map (fun p => u p * v p) l)
   <= Qsum (map (fun p => u p * u p) l)
      * Qsum (map (fun p => v p * v p) l))%Q.
Proof.
  induction l as [| p l IH]; simpl; [Lqa.lra |].
  apply cauchy_step; [apply sum_squares_nonneg .. | exact IH].
Qed.

Lemma ratio_bound (s X Y : R) :
  (0 < X)%R -> (0 < Y)%R -> (s * s <= X * Y)%R ->
  (-1 <= s / (sqrt X * sqrt Y) <= 1)%R.
Proof.
  intros HX HY Hs.
  pose proof (sqrt_lt_R0 X HX) as SX. pose proof (sqrt_lt_R0 Y HY) as SY.
  set (d := (sqrt X * sqrt Y)%R).
  assert (Hd : (0 < d)%R) by (apply Rmult_lt_0_compat; assumption).
  assert (Hdd : (d * d = X * Y)%R).
  { unfold d.
    replace (sqrt X * sqrt Y * (sqrt X * sqrt Y))%R
      with ((sqrt X * sqrt X) * (sqrt Y * sqrt Y))%R by ring.
    rewrite !sqrt_sqrt by lra. reflexivity. }
  assert (Hu : (s <= d)%R) by nra.
  assert (Hl : (- d <= s)%R) by nra.
  split.
  - apply Rmult_le_reg_r with d; [assumption |].
    unfold Rdiv. rewrite Rmult_assoc, Rinv_l by lra. lra.
  - apply Rmult_le_reg_r with d; [assumption |].
    unfold Rdiv. rewrite Rmult_assoc, Rinv_l by lra. lra.
Qed.

Lemma Q2R_pos (q : Q) : (0 <= q)%Q -> Qeq_bool q 0 = false -> (0 < Q2R q)%R.
Proof.
  intros H0 Hne. apply Qeq_bool_neq in Hne.
  assert (H : (0 < q)%Q).
  { destruct (Qlt_le_dec 0 q) as [H | H]; [assumption |].
    exfalso. apply Hne. Lqa.lra. }
  apply Qlt_Rlt in H. now rewrite RMicromega.Q2R_0 in H.
Qed.

Lemma pearson_bounded (ps : list (Q * Q)) :
  match pearson ps with
  | Some r => (-1 <= r <= 1)%R
  | None => True
  end.
Proof.
  unfold pearson, corr_sums.
  destruct (List.length ps <? 2)%nat; [exact I |].
  destruct (Qeq_bool (sum_dev (map fst ps) (map fst ps)) 0) eqn:Ex;
    [exact I |].
  destruct (Qeq_bool (sum_dev (map snd ps) (map snd ps)) 0) eqn:Ey;
    [exact I |].
  cbn [orb].
  rewrite sum_dev_map in Ex, Ey |- *. rewrite !sum_dev_map.
  set (u := fun p : Q * Q =>
              (fst p - Qsum (map fst ps) / Qlen (map fst ps))%Q) in *.
  set (v := fun p : Q * Q =>
              (snd p - Qsum (map snd ps) / Qlen (map snd ps))%Q) in *.
  apply ratio_bound.
  - apply Q2R_pos; [apply (sum_squares_nonneg u) | exact Ex].
  - apply Q2R_pos; [apply (sum_squares_nonneg v) | exact Ey].
  - rewrite <- !Q2R_mult. apply Qle_Rle. apply (cauchy_schwarz u v).
Qed.

(** X15: whenever a correlation is a number it lies between -1 and 1. *)
Theorem corr_within_unit_interval (xs ys : list (option num)) :
  match series_corr xs ys with
  | Some r => (-1 <= r <= 1)%R
  | None => True
  end.
Proof.
  unfold series_corr.
  destruct (finite_pairs (complete_pairs xs ys)) as [ps |]; [| exact I].
  apply (pearson_bounded ps).
Qed.

(** ** One year *)

Lemma singleton_keys (l : list Z) (y : Z) :
  NoDup l -> (forall z, In z l <-> z = y) -> l = [y].
Proof.
  intros Hnd H. destruct l as [| a t].
  - exfalso. now apply (proj2 (H y)).
  - assert (a = y) by (apply H; now left). subst a.
    destruct t as [| b t]; [reflexivity |].
    assert (b = y) by (apply H; right; now left). subst b.
    inversion Hnd as [| ? ? Hn _]; subst. contradiction Hn. now left.
Qed.

Lemma get_group_all (df : DataFrame) (y : Z) :
  Forall (fun r => year r = y) df -> get_group df y = df.
Proof.
  unfold get_group. induction 1 as [| r df Hr _ IH]; simpl; [reflexivity |].
  rewrite IH. apply Z.eqb_eq in Hr. now rewrite Hr.
Qed.

(** X18: on a table whose rows all carry one year (a run in which a single
    year brought rows), both yearly tables have that one year only, and
    its yearly correlation is the overall correlation. *)
Theorem single_year_table (df : DataFrame) (y : Z) :
  df <> [] ->
  Forall (fun r => year r = y) df ->
  map t_year (state_trend df) = [y] /\
  corr_by_year df = Some [(y, overall_corr df)].
Proof.
  intros Hne H.
  assert (K : group_keys df = [y]).
  { apply singleton_keys; [apply group_keys_NoDup |].
    intros z. rewrite group_keys_In, in_map_iff. split.
    - intros (r & <- & Hr). rewrite Forall_forall in H. now apply H.
    - intros ->. destruct df as [| r df]; [congruence |].
      exists r. split; [| now left]. now inversion H. }
  split.
  - now rewrite state_trend_keys.
  - rewrite (corr_by_year_unsorted df Hne), K. cbn [map].
    now rewrite (get_group_all df y H).
Qed.

Lemma single_year_table_witness :
  map t_year (state_trend (combined_table parse_decimal api_three)) = [2012]
  /\ corr_by_year (combined_table parse_decimal api_three)
     = Some [(2012, overall_corr (combined_table parse_decimal api_three))].
Proof.
  apply (single_year_table (combined_table parse_decimal api_three) 2012).
  - vm_compute. discriminate.
  - vm_compute. repeat (constructor; [reflexivity |]). constructor.
Defined.

(** X21: a year with exactly one row in the table has NaN for its yearly
    correlation: the yearly correlation table is produced, holds NaN in
    the row of that year, and has no other value for it. *)
Theorem one_row_year_has_nan_corr (df : DataFrame) (y : Z) :
  rows_of_year df y = 1%nat ->
  exists corr,
    corr_by_year df = Some corr /\
    In (y, None) corr /\
    (forall c, In (y, c) corr -> c = None).
Proof.
  intros H. unfold rows_of_year in H.
  assert (E : overall_corr (get_group df y) = None).
  { unfold overall_corr. apply series_corr_short.
    rewrite length_map, H. lia. }
  assert (Hy : In y (group_keys df)).
  { destruct (get_group df y) as [| r g] eqn:G; [discriminate |].
    assert (Hr : In r (get_group df y)) by (rewrite G; now left).
    apply filter_In in Hr as [Hr Hyr]. apply Z.eqb_eq in Hyr.
    apply group_keys_In, in_map_iff. now exists r. }
  assert (Hne : df <> []).
  { intros ->. apply group_keys_In in Hy. contradiction. }
  eexists. split; [apply (corr_by_year_unsorted df Hne) | split].
  - apply in_map_iff. exists y. rewrite E. now split.
  - intros c Hc. apply in_map_iff in Hc as (z & Hz & _).
    injection Hz as -> <-. exact E.
Qed.

Lemma one_row_year_has_nan_corr_witness :
  exists corr,
    corr_by_year (combined_table parse_decimal api_single) = Some corr /\
    In (2014, None) corr /\
    (forall c, In (2014, c) corr -> c = None).
Proof.
  apply (one_row_year_has_nan_corr
           (combined_table parse_decimal api_single) 2014).
  reflexivity.
Defined.

(** ** Row order of the combined table *)

Lemma sorted_app (l1 l2 : list Z) :
  StronglySorted Z.le l1 -> StronglySorted Z.le l2 ->
  (forall a b, In a l1 -> In b l2 -> a <= b) ->
  StronglySorted Z.le (l1 ++ l2).
Proof.
  induction 1 as [| h t Ht IH Hh]; intros H2 Hc; simpl; [assumption |].
  constructor.
  - apply IH; [assumption |]. intros a b Ha Hb. apply Hc; [now right | easy].
  - apply Forall_app. split; [assumption |].
    apply Forall_forall. intros b Hb. apply Hc; [now left | assumption].
Qed.

Lemma constant_sorted (y : Z) (l : list Z) :
  Forall (fun z => z = y) l -> StronglySorted Z.le l.
Proof.
  induction 1 as [| z l -> Hl IH]; constructor; [assumption |].
  eapply Forall_impl; [| exact Hl]. intros a ->. lia.
Qed.

Lemma fetched_years_sorted (parse : string -> option num)
  (api : Z -> response) (years : list Z) :
  StronglySorted Z.le years ->
  StronglySorted Z.le (map year (pd_concat (fetched parse api years))) /\
  Forall (fun z => In z years)
    (map year (pd_concat (fetched parse api years))).
Proof.
  unfold pd_concat.
  induction 1 as [| y years Hs IH Hy]; [split; constructor |].
  destruct IH as [IH1 IH2]. cbn [fetched flat_map].
  fold (fetched parse api years).
  rewrite concat_app, map_app.
  destruct (fetch_acs_county_year parse api y) as [df | e] eqn:E.
  - cbn [List.concat]. rewrite app_nil_r.
    assert (D : Forall (fun z => z = y) (map year df)).
    { apply Forall_forall. intros z Hz. apply in_map_iff in Hz as (r & <- & Hr).
      now destruct (fetch_row_facts parse api y df r E Hr). }
    split.
    + apply sorted_app; [now apply (constant_sorted y) | assumption |].
      intros a b Ha Hb. rewrite Forall_forall in D, IH2, Hy.
      rewrite (D a Ha). apply Hy, IH2, Hb.
    + apply Forall_app. split.
      * eapply Forall_impl; [| exact D]. intros z ->. now left.
      * eapply Forall_impl; [| exact IH2]. intros z Hz. now right.
  - cbn [List.concat app map]. split; [assumption |].
    eapply Forall_impl; [| exact IH2]. intros z Hz. now right.
Qed.

(** X20: the rows of the combined table come in ascending order of year
    (the years are configured in ascending order, fetched in that order
    and concatenated in that order), and carry configured years only. *)
Theorem combined_table_in_year_order
  (parse : string -> option num) (api : Z -> response) :
  StronglySorted Z.le (map year (combined_table parse api)) /\
  Forall (fun z => In z YEARS) (map year (combined_table parse api)).
Proof.
  unfold combined_table. rewrite fetch_loop_eq. cbn [all_dfs].
  apply fetched_years_sorted.
  unfold YEARS. repeat (constructor; [| repeat constructor; lia]).
  constructor.
Qed.
